(** * The container supervisor of [load-balancer/src/index.ts]

    A shallow embedding of the [Container] Durable Object: the persisted
    lifecycle state, the self-rescheduling alarm, the health probe and its
    classification, the monitor-completion handler, [start] and [destroy].

    The class is asynchronous code over three external collaborators (the
    storage of the Durable Object, its alarm slot and the container
    runtime).  Each method is embedded as a computation in a state and
    exception monad over the instance; every call into a collaborator is
    recorded in a trace, so that the order of effects can be stated.
    [console.*] calls are diagnostics only and are left out. *)

From Stdlib Require Import ZArith String List Bool.
From Stdlib Require QArith Qround.
From stdpp Require Import base option gmap strings.
Import ListNotations.

Local Open Scope string_scope.
Local Open Scope list_scope.
Local Open Scope Z_scope.

(** ** Data model *)

(** [type ContainerState = 'starting' | 'running' | 'unhealthy' | 'stopped' | 'failed'] *)
Inductive ContainerState : Type :=
  | starting
  | running
  | unhealthy
  | stopped
  | failed.

#[global] Instance ContainerState_eq_dec : EqDecision ContainerState.
Proof. solve_decision. Defined.

(** A JavaScript [Error]: the class only ever reads [err.message]. *)
Record Error : Type := mkError { message : string }.

(** The settlement of a promise: fulfilled with a value or rejected. *)
Inductive Outcome (A : Type) : Type :=
  | Return (a : A)
  | Throw (e : Error).
Arguments Return {A} a.
Arguments Throw {A} e.

(** A [Response]: its status and what reading its body ([text()]) gives. *)
Record Response : Type := mkResponse {
  status : Z;
  body : Outcome string
}.

(** [res.ok]: the status is in the range 200-299. *)
Definition ok (res : Response) : bool :=
  (200 <=? status res) && (status res <=? 299).

(** [ContainerStartupOptions], passed through to the runtime untouched. *)
Record ContainerStartupOptions : Type := mkOptions {
  entrypoint : list string;
  enableInternet : bool
}.

(** A monitor promise handed out by the runtime, named by its rank. *)
Definition Promise : Type := nat.

(** The container runtime handle ([globalThis.Container]): the [running]
    flag, the start requests it received, the number of monitor promises
    it handed out, and whether it was destroyed. *)
Record Runtime : Type := mkRuntime {
  rt_running : bool;
  rt_started : list (option ContainerStartupOptions);
  rt_monitors : nat;
  rt_destroyed : bool
}.

(** One call into a collaborator. *)
Inductive Event : Type :=
  | StorageGet (key : string)
  | StoragePut (key : string) (value : ContainerState)
  | StorageSync
  | StorageGetAlarm
  | StorageSetAlarm (time : Z)
  | StorageDeleteAll
  | StorageDeleteAlarm
  | EnterCriticalSection
  | LeaveCriticalSection
  | PortFetch (port : Z) (url : string)
  | ResponseText (code : Z)
  | RuntimeStart (options : option ContainerStartupOptions)
  | RuntimeMonitor (p : Promise)
  | MonitorAttach (p : Promise)
  | RuntimeDestroy
  | CtxAbort.

(** [DurableObjectState] ([ctx]): the key-value storage, the alarm slot of
    the storage, the runtime handle it may expose, the trace of calls made
    so far, and whether the object was reset (by [ctx.abort()] or by an
    error inside a critical section). *)
Record DurableObjectState : Type := mkCtx {
  kv : gmap string ContainerState;
  alarmAt : option Z;
  ctx_container : option Runtime;
  trace : list Event;
  aborted : bool
}.

(** An instance of [class Container]: [this.ctx], [this.container] and
    [this.monitor].  [this.container] is the object [ctx.container]; the
    model keeps the two in step (see [set_container]). *)
Record Container : Type := mkContainer {
  ctx : DurableObjectState;
  container : Runtime;
  monitor : option Promise
}.

(** What the collaborators answer during one operation: the clock, the
    outcome of the probe request, and which calls fail.  [fault n ev] is
    the error raised by the call [ev] when it is the [n]-th call of the
    trace, if it fails.  The calls that can fail are those of the storage
    and the alarm slot and [container.destroy()]; the request of the probe
    and the reading of a body fail as [probe] and [body] say. *)
Record Env : Type := mkEnv {
  now : Z;
  probe : Outcome Response;
  fault : nat -> Event -> option Error
}.

(** ** The monad of the methods *)

Definition M (A : Type) : Type := Container -> Outcome A * Container.

Definition ret {A} (a : A) : M A := fun c => (Return a, c).

Definition throw {A} (e : Error) : M A := fun c => (Throw e, c).

Definition bind {A B} (m : M A) (k : A -> M B) : M B :=
  fun c =>
    match m c with
    | (Return a, c') => k a c'
    | (Throw e, c') => (Throw e, c')
    end.

Notation "'let*' x ':=' m 'in' k" := (bind m (fun x => k))
  (at level 10, x name, m at level 100, k at level 200).
Notation "'exec' m 'in' k" := (bind m (fun _ => k))
  (at level 10, m at level 100, k at level 200).

(** The object was reset on the way from [c] to [c']: the runtime has
    torn down its execution context.  No code of the object runs after
    that: no handler catches the error that comes with the reset and no
    [finally] block runs.  (A reset happens to a live object; the
    methods are not meant to run on an object that was reset before.) *)
Definition reset_during (c c' : Container) : bool :=
  negb (aborted (ctx c)) && aborted (ctx c').

(** [wrap]: a promise that never rejects; the error becomes a value,
    unless the object was reset. *)
Definition wrap {A} (fn : M A) : M (A + Error) :=
  fun c =>
    match fn c with
    | (Return data, c') => (Return (inl data), c')
    | (Throw err, c') =>
        if reset_during c c' then (Throw err, c')
        else (Return (inr err), c')
    end.

(** [try { body } finally { fin }]: [fin] runs when [body] ends,
    unless the object was reset; an error of [fin] replaces the outcome
    of [body]. *)
Definition try_finally {A} (body : M A) (fin : M unit) : M A :=
  fun c =>
    match body c with
    | (r, c1) =>
        if reset_during c c1 then (r, c1)
        else
          match fin c1 with
          | (Return _, c2) => (r, c2)
          | (Throw e, c2) => (Throw e, c2)
          end
    end.

(** [p.then(onOk).catch(onErr)] for a promise [p] that settles as [m]:
    [onErr] runs on an error, unless the object was reset. *)
Definition then_catch {A} (m : M A) (onErr : Error -> M A) : M A :=
  fun c =>
    match m c with
    | (Return a, c') => (Return a, c')
    | (Throw e, c') =>
        if reset_during c c' then (Throw e, c')
        else onErr e c'
    end.

(** ** Updating the instance *)

Definition set_kv (f : gmap string ContainerState -> gmap string ContainerState)
    (c : Container) : Container :=
  mkContainer
    (mkCtx (f (kv (ctx c))) (alarmAt (ctx c)) (ctx_container (ctx c))
       (trace (ctx c)) (aborted (ctx c)))
    (container c) (monitor c).

Definition set_alarmAt (a : option Z) (c : Container) : Container :=
  mkContainer
    (mkCtx (kv (ctx c)) a (ctx_container (ctx c)) (trace (ctx c))
       (aborted (ctx c)))
    (container c) (monitor c).

Definition record (ev : Event) (c : Container) : Container :=
  mkContainer
    (mkCtx (kv (ctx c)) (alarmAt (ctx c)) (ctx_container (ctx c))
       (trace (ctx c) ++ [ev]) (aborted (ctx c)))
    (container c) (monitor c).

Definition set_aborted (c : Container) : Container :=
  mkContainer
    (mkCtx (kv (ctx c)) (alarmAt (ctx c)) (ctx_container (ctx c))
       (trace (ctx c)) true)
    (container c) (monitor c).

(** The runtime object is shared by [ctx.container] and [this.container]. *)
Definition set_container (f : Runtime -> Runtime) (c : Container) : Container :=
  mkContainer
    (mkCtx (kv (ctx c)) (alarmAt (ctx c)) (Some (f (container c)))
       (trace (ctx c)) (aborted (ctx c)))
    (f (container c)) (monitor c).

Definition set_monitor (m : option Promise) (c : Container) : Container :=
  mkContainer (ctx c) (container c) m.

Definition modify (f : Container -> Container) : M unit :=
  fun c => (Return tt, f c).

Definition gets {A} (f : Container -> A) : M A :=
  fun c => (Return (f c), c).

(** ** The collaborators *)

(** [str.includes(sub)] *)
Fixpoint includes (str sub : string) : bool :=
  String.prefix sub str ||
  match str with
  | EmptyString => false
  | String _ rest => includes rest sub
  end.

Section Operations.

Variable env : Env.

(** A call into a collaborator: it is recorded, then fails if the
    environment says so. *)
Definition call (ev : Event) : M unit :=
  fun c =>
    match fault env (List.length (trace (ctx c))) ev with
    | Some e => (Throw e, record ev c)
    | None => (Return tt, record ev c)
    end.

(** [ctx.storage.get(key)] *)
Definition storage_get (key : string) : M (option ContainerState) :=
  exec call (StorageGet key) in
  gets (fun c => kv (ctx c) !! key).

(** [ctx.storage.put(key, value)] *)
Definition storage_put (key : string) (value : ContainerState) : M unit :=
  exec call (StoragePut key value) in
  modify (set_kv (insert key value)).

(** [ctx.storage.sync()] *)
Definition storage_sync : M unit := call StorageSync.

(** [ctx.storage.getAlarm()] *)
Definition storage_getAlarm : M (option Z) :=
  exec call StorageGetAlarm in
  gets (fun c => alarmAt (ctx c)).

(** [ctx.storage.setAlarm(time)] *)
Definition storage_setAlarm (time : Z) : M unit :=
  exec call (StorageSetAlarm time) in
  modify (set_alarmAt (Some time)).

(** [ctx.storage.deleteAll()]: removes every key; the alarm is kept. *)
Definition storage_deleteAll : M unit :=
  exec call StorageDeleteAll in
  modify (set_kv (fun _ => ∅)).

(** [ctx.storage.deleteAlarm()] *)
Definition storage_deleteAlarm : M unit :=
  exec call StorageDeleteAlarm in
  modify (set_alarmAt None).

(** [ctx.blockConcurrencyWhile(cb)]: the critical section of the Durable
    Object.  The section is left when [cb] returns.  When [cb] throws,
    the runtime resets the object: the error is passed on and nothing
    of the object runs any more. *)
Definition blockConcurrencyWhile {A} (cb : M A) : M A :=
  fun c =>
    match cb (record EnterCriticalSection c) with
    | (Return a, c1) => (Return a, record LeaveCriticalSection c1)
    | (Throw e, c1) => (Throw e, set_aborted c1)
    end.

(** [ctx.abort()]: resets the Durable Object.  It always throws, as the
    comment above [destroy] says ("This ALWAYS throws an exception because
    it resets the DO"). *)
Definition abort_error : Error := mkError "Durable Object reset by abort()".

Definition ctx_abort : M unit :=
  exec modify (record CtxAbort) in
  exec modify set_aborted in
  throw abort_error.

(** [container.start(options)] *)
Definition container_start (options : option ContainerStartupOptions) : M unit :=
  exec modify (record (RuntimeStart options)) in
  modify (set_container (fun rt =>
    mkRuntime true (options :: rt_started rt) (rt_monitors rt) (rt_destroyed rt))).

(** [container.monitor()]: a fresh promise that settles when the process
    exits. *)
Definition container_monitor : M Promise :=
  let* p := gets (fun c => rt_monitors (container c)) in
  exec modify (record (RuntimeMonitor p)) in
  exec modify (set_container (fun rt =>
    mkRuntime (rt_running rt) (rt_started rt) (S (rt_monitors rt)) (rt_destroyed rt))) in
  ret p.

(** [container.destroy()] *)
Definition container_destroy : M unit :=
  exec call RuntimeDestroy in
  modify (set_container (fun rt =>
    mkRuntime false (rt_started rt) (rt_monitors rt) true)).

(** [container.getTcpPort(portNumber).fetch(new Request(url))]: the
    outcome of the request is the one of the environment. *)
Definition port_fetch (portNumber : Z) (url : string) : M Response :=
  exec modify (record (PortFetch portNumber url)) in
  match probe env with
  | Return res => ret res
  | Throw err => throw err
  end.

(** [res.text()]: reads the body to its end. *)
Definition text (res : Response) : M string :=
  exec modify (record (ResponseText (status res))) in
  match body res with
  | Return s => ret s
  | Throw err => throw err
  end.

(** ** The methods of [class Container] *)

(** [isNotListeningError(err)] *)
Definition isNotListeningError (err : Error) : bool :=
  includes (message err) "the container is not listening".

(** [noContainerYetError(err)] *)
Definition noContainerYetError (err : Error) : bool :=
  includes (message err) "there is no container instance".

(** [state()]: [(await this.ctx.storage.get('state')) ?? 'starting'] *)
Definition state : M ContainerState :=
  let* v := storage_get "state" in
  ret (default starting v).

(** [stateTx(cb)] *)
Definition stateTx (cb : ContainerState -> M unit) : M unit :=
  blockConcurrencyWhile (
    let* s := state in
    cb s).

(** [setState(state)] *)
Definition setState (s : ContainerState) : M unit :=
  exec storage_put "state" s in
  storage_sync.

(** [setAlarm(value = Date.now() + 500)] *)
Definition setAlarm (value : option Z) : M unit :=
  let value := default (now env + 500)%Z value in
  let* alarm := storage_getAlarm in
  match alarm with
  | None =>
      exec storage_setAlarm value in
      storage_sync
  | Some _ => ret tt
  end.

(** [healthCheck(portNumber = 8000)]: ['ok' | 'not_listening' |
    'no_container_yet'] on the left, a [Response] on the right. *)
Definition healthCheck (portNumber : option Z) : M (string + Response) :=
  let portNumber := default 8000%Z portNumber in
  let* r := wrap (port_fetch portNumber "http://container/_health") in
  match r with
  | inr err =>
      if isNotListeningError err then ret (inl "not_listening")
      else if noContainerYetError err then ret (inl "no_container_yet")
      else throw err
  | inl res =>
      if ok res then
        exec text res in
        ret (inl "ok")
      else ret (inr res)
  end.

(** The callback that [alarm] gives to [stateTx]. *)
Definition alarmBody (state : ContainerState) : M unit :=
  let* r := wrap (healthCheck None) in
  match r with
  | inr err =>
      if bool_decide (state <> starting) then setState failed
      else ret tt
  | inl (inr result) =>
      exec wrap (text result) in
      setState unhealthy
  | inl (inl result) =>
      if String.eqb result "ok" then setState running
      else if String.eqb result "not_listening"
              || String.eqb result "no_container_yet"
      then setState starting
      else ret tt
  end.

(** [alarm()] *)
Definition alarm : M unit :=
  try_finally (stateTx alarmBody) (setAlarm None).

(** How a monitor promise settles. *)
Inductive Settlement : Type :=
  | Resolved
  | Rejected (err : Error).

(** The [.then] callback of [handleMonitorPromise]. *)
Definition monitorResolved : M unit :=
  stateTx (fun state =>
    if bool_decide (state = running) || bool_decide (state = unhealthy)
    then setState stopped
    else if bool_decide (state = starting) then ret tt
    else if bool_decide (state = failed) then ret tt
    else ret tt).

(** The [.catch] callback of [handleMonitorPromise]. *)
Definition monitorRejected (err : Error) : M unit :=
  setState failed.

(** [handleMonitorPromise(monitor)]: attaches the two callbacks. *)
Definition handleMonitorPromise (p : Promise) : M unit :=
  modify (record (MonitorAttach p)).

(** What the chain [monitor.then(..).catch(..)] does once [monitor]
    settles: the [.catch] callback also receives an error of the [.then]
    callback. *)
Definition monitorSettled (s : Settlement) : M unit :=
  then_catch
    (exec (match s with
           | Resolved => ret tt
           | Rejected err => throw err
           end) in
     monitorResolved)
    monitorRejected.

(** [this.monitor = this.container.monitor();
     this.handleMonitorPromise(this.monitor)] *)
Definition attachMonitor : M unit :=
  let* p := container_monitor in
  exec modify (set_monitor (Some p)) in
  handleMonitorPromise p.

(** [start(containerStart?)] *)
Definition start (containerStart : option ContainerStartupOptions) : M unit :=
  let* isRunning := gets (fun c => rt_running (container c)) in
  if isRunning then
    let* m := gets monitor in
    match m with
    | None => attachMonitor
    | Some _ => ret tt
    end
  else
    exec setState starting in
    exec container_start containerStart in
    attachMonitor.

(** [destroy()] *)
Definition destroy : M unit :=
  try_finally
    (exec storage_deleteAll in
     exec storage_deleteAlarm in
     container_destroy)
    ctx_abort.

(** [constructor(ctx, env)]: the block given to [blockConcurrencyWhile]
    runs before any other event is delivered to the object; its promise
    is not awaited, so its outcome is not the constructor's. *)
Definition constructor (ctx0 : DurableObjectState)
    : Outcome Container * DurableObjectState :=
  match ctx_container ctx0 with
  | None => (Throw (mkError "container is not defined"), ctx0)
  | Some rt =>
      let this := mkContainer ctx0 rt None in
      let this' :=
        snd (blockConcurrencyWhile (
               exec (let* isRunning := gets (fun c => rt_running (container c)) in
                     if isRunning then
                       let* m := gets monitor in
                       match m with
                       | None => attachMonitor
                       | Some _ => ret tt
                       end
                     else ret tt) in
               setAlarm (Some (now env))) this) in
      (Return this', ctx this')
  end.

End Operations.

(** ** Observations *)

(** The value stored under the key ['state'], if any. *)
Definition persisted (c : Container) : option ContainerState :=
  kv (ctx c) !! "state".

(** The state as [state()] reads it. *)
Definition current (c : Container) : ContainerState :=
  default starting (persisted c).

(** The calls made between two points of an execution. *)
Definition events_since (c c' : Container) : list Event :=
  drop (List.length (trace (ctx c))) (trace (ctx c')).

(** No call into the storage, the alarm slot or the runtime fails. *)
Definition quiet (env : Env) : Prop :=
  forall n ev, fault env n ev = None.

(** The calls into the alarm slot do not fail. *)
Definition timers_ok (env : Env) : Prop :=
  forall n, fault env n StorageGetAlarm = None /\
            forall t, fault env n (StorageSetAlarm t) = None.

(** The five outcomes of a probe that the transition table names. *)
Inductive HealthCheckResult : Type :=
  | Ok
  | NotListening
  | NoContainerYet
  | HttpResponse (res : Response)
  | GenericError (cause : Error).

(** How [alarm] reads what [wrap(this.healthCheck())] gives it. *)
Definition probe_result (o : Outcome (string + Response))
    : option HealthCheckResult :=
  match o with
  | Throw err => Some (GenericError err)
  | Return (inr res) => Some (HttpResponse res)
  | Return (inl s) =>
      if String.eqb s "ok" then Some Ok
      else if String.eqb s "not_listening" then Some NotListening
      else if String.eqb s "no_container_yet" then Some NoContainerYet
      else None
  end.

(** The calls of the body of a tick whose probe got a non-2xx response. *)
Definition unhealthy_tick_calls (res : Response) : list Event :=
  [ EnterCriticalSection; StorageGet "state";
    PortFetch 8000 "http://container/_health";
    ResponseText (status res);
    StoragePut "state" unhealthy; StorageSync;
    LeaveCriticalSection ].

(** Whether every read and write of the key ['state'] in a run of calls
    happens inside a critical section; [depth] counts the sections that
    are open. *)
Fixpoint serialized_from (depth : nat) (evs : list Event) : bool :=
  match evs with
  | [] => true
  | EnterCriticalSection :: rest => serialized_from (S depth) rest
  | LeaveCriticalSection :: rest => serialized_from (Nat.pred depth) rest
  | StorageGet key :: rest =>
      (negb (String.eqb key "state") || Nat.ltb 0 depth)
      && serialized_from depth rest
  | StoragePut key _ :: rest =>
      (negb (String.eqb key "state") || Nat.ltb 0 depth)
      && serialized_from depth rest
  | _ :: rest => serialized_from depth rest
  end.

Definition serialized (evs : list Event) : bool := serialized_from 0 evs.

(** The supervisor is alive until it is reset. *)
Definition alive (c : Container) : Prop := aborted (ctx c) = false.

(** What can happen to a constructed instance.  When the pending timer
    fires, the runtime takes it out of the alarm slot and calls [alarm]
    ([getAlarm()] answers [null] inside the handler until a new alarm is
    set); [start] and [destroy] are called from outside; a monitor
    promise settles one way or the other.  Each event has its own
    environment. *)
Inductive step (c : Container) : Container -> Prop :=
  | step_tick env t :
      timers_ok env ->
      alarmAt (ctx c) = Some t ->
      step c (snd (alarm env (set_alarmAt None c)))
  | step_start env options :
      step c (snd (start env options c))
  | step_monitor env s :
      step c (snd (monitorSettled env s c))
  | step_destroy env :
      step c (snd (destroy env c)).

(** The instances that a lifetime can reach after construction. *)
Inductive reachable : Container -> Prop :=
  | reachable_new env ctx0 this ctx' :
      timers_ok env ->
      constructor env ctx0 = (Return this, ctx') ->
      reachable this
  | reachable_step c c' :
      reachable c -> step c c' -> reachable c'.

(** A computation keeps a property of the instance, whatever fails. *)
Definition preserves {A} (P : Container -> Prop) (m : M A) : Prop :=
  forall c, P c -> P (snd (m c)).

(** A computation only throws errors raised by a failed call. *)
Definition throws_only_faults {A} (env : Env) (m : M A) : Prop :=
  forall c e, fst (m c) = Throw e -> exists n ev, fault env n ev = Some e.

(** The properties of interest: the alarm slot, the abort flag, and the
    runtime handle shared by [ctx] and [this]. *)
Definition alarm_slot_is (a : option Z) (c : Container) : Prop :=
  alarmAt (ctx c) = a.

Definition abort_flag_is (b : bool) (c : Container) : Prop :=
  aborted (ctx c) = b.

Definition holds_runtime (c : Container) : Prop :=
  ctx_container (ctx c) = Some (container c).

(** ** Scenarios *)

(** A runtime that was never started, and a fresh object over it. *)
Definition idle_runtime : Runtime := mkRuntime false [] 0 false.

Definition fresh_ctx : DurableObjectState :=
  mkCtx ∅ None (Some idle_runtime) [] false.

Definition fresh : Container := mkContainer fresh_ctx idle_runtime None.

(** An object whose persisted state is [s]. *)
Definition in_state (s : ContainerState) : Container :=
  set_kv (insert "state" s) fresh.

(** An execution context that exposes no container. *)
Definition bare_ctx : DurableObjectState := mkCtx ∅ None None [] false.

(** An environment in which no call fails, at time 1000. *)
Definition reliable (p : Outcome Response) : Env :=
  mkEnv 1000 p (fun _ _ => None).

(** An environment in which the calls of one kind fail. *)
Definition disk_error : Error := mkError "storage operation failed".

Definition put_fails (p : Outcome Response) : Env :=
  mkEnv 1000 p (fun _ ev =>
    match ev with
    | StoragePut _ _ => Some disk_error
    | _ => None
    end).

Definition destroy_fails : Env :=
  mkEnv 1000 (Throw (mkError "unused"))
    (fun _ ev =>
       match ev with
       | RuntimeDestroy => Some (mkError "runtime destroy failed")
       | _ => None
       end).

(** Probe outcomes. *)
Definition response_200 : Response := mkResponse 200 (Return "ok").

Definition response_503 : Response := mkResponse 503 (Return "overloaded").

(** A 200 response whose body cannot be read to its end. *)
Definition connection_reset : Error := mkError "connection reset".

Definition response_200_broken : Response :=
  mkResponse 200 (Throw connection_reset).

Definition not_listening_error : Error :=
  mkError "connect(): the container is not listening in the TCP address".

Definition network_error : Error := mkError "network connection lost".

Definition startup_options : ContainerStartupOptions :=
  mkOptions ["node"; "server.js"] true.

(** The instance that the constructor builds over [fresh_ctx]. *)
Definition constructed : Container :=
  match constructor (reliable (Throw network_error)) fresh_ctx with
  | (Return this, _) => this
  | (Throw _, _) => fresh
  end.


(** ** Further observations *)

(** The calls that are probe requests. *)
Definition is_probe (ev : Event) : bool :=
  match ev with
  | PortFetch _ _ => true
  | _ => false
  end.

(** The runtime object and the tracked monitor are those of [c0]. *)
Definition same_runtime (c0 c : Container) : Prop :=
  container c = container c0 /\ monitor c = monitor c0.

(** An environment in which reading the state fails and nothing else. *)
Definition get_fails : Env :=
  mkEnv 1000 (Throw (mkError "unused"))
    (fun _ ev =>
       match ev with
       | StorageGet key =>
           if String.eqb key "state" then Some disk_error else None
       | _ => None
       end).

(** The calls that take a monitor from the runtime or attach the
    handler to one. *)
Definition is_monitor_call (ev : Event) : bool :=
  match ev with
  | RuntimeMonitor _ | MonitorAttach _ => true
  | _ => false
  end.

(** ** [class ContainerManager] *)

(** A JavaScript number, as the storage can hold one under the key
    ['instances']: a finite value, given as a rational (every finite
    double is one), [NaN], or an infinity. *)
Inductive JsNumber : Type :=
  | Finite (q : QArith_base.Q)
  | NaN
  | PosInfinity
  | NegInfinity.

(** The storage of a [ContainerManager].  Its storage calls are taken
    to succeed. *)
Record ContainerManager : Type := mkManager {
  manager_kv : gmap string JsNumber
}.

(** [setNumberOfInstances(instances)] *)
Definition setNumberOfInstances (instances : JsNumber) (m : ContainerManager)
    : ContainerManager :=
  mkManager (<["instances" := instances]> (manager_kv m)).

(** The counter [i] of the loop is a whole number from 0 to 2^53; the
    doubles represent these exactly. *)
Definition max_counter : Z := 2 ^ 53.

(** [i < instances]: a comparison with [NaN] is false. *)
Definition counter_lt (i : Z) (instances : JsNumber) : bool :=
  match instances with
  | Finite q => negb (QArith_base.Qle_bool q (QArith_base.inject_Z i))
  | NaN => false
  | PosInfinity => true
  | NegInfinity => false
  end.

(** [i++] on doubles: below 2^53 the sum is exact; 2^53 + 1 is not a
    double and rounds back to 2^53, so the counter stays there. *)
Definition counter_next (i : Z) : Z :=
  if i <? max_counter then i + 1 else i.

(** [for (let i = 0; i < instances; i++) {}], with the rounds left as
    fuel: [None] when the fuel runs out before the loop ends. *)
Fixpoint statesLoop (fuel : nat) (i : Z) (instances : JsNumber)
    (statuses : list ContainerState) : option (list ContainerState) :=
  match fuel with
  | O => None
  | S fuel' =>
      if counter_lt i instances
      then statesLoop fuel' (counter_next i) instances statuses
      else Some statuses
  end.

(** [getContainerStates()], run for at most [fuel] tests of the loop:
    [(await this.ctx.storage.get('instances')) ?? 0], then the loop. *)
Definition getContainerStates (fuel : nat) (m : ContainerManager)
    : option (list ContainerState) :=
  let instances :=
    default (Finite (QArith_base.inject_Z 0)) (manager_kv m !! "instances") in
  statesLoop fuel 0 instances [].

(** The counts for which the loop comes to an end: all but the finite
    ones above 2^53 and positive infinity. *)
Definition loop_ends (instances : JsNumber) : bool :=
  match instances with
  | Finite q => QArith_base.Qle_bool q (QArith_base.inject_Z max_counter)
  | NaN => true
  | PosInfinity => false
  | NegInfinity => true
  end.

(** * Properties *)

(** ** Running the methods *)

Lemma call_ok env ev c :
  fault env (List.length (trace (ctx c))) ev = None ->
  call env ev c = (Return tt, record ev c).
Proof. intros H. unfold call. now rewrite H. Qed.

Lemma call_quiet env ev c :
  quiet env -> call env ev c = (Return tt, record ev c).
Proof. intros H. apply call_ok, H. Qed.

Lemma quiet_reliable p : quiet (reliable p).
Proof. intros n ev. reflexivity. Defined.

Lemma timers_ok_reliable p : timers_ok (reliable p).
Proof. intros n. split; [reflexivity | intros t; reflexivity]. Defined.

Lemma drop_length_app {A} (l k : list A) : drop (List.length l) (l ++ k) = k.
Proof. induction l as [|x l IH]; [reflexivity | exact IH]. Qed.

Lemma app_assoc_cons {A} (l : list A) (x : A) (k : list A) :
  (l ++ [x]) ++ k = l ++ x :: k.
Proof. now rewrite <- app_assoc. Qed.

Arguments call : simpl never.

Ltac unfold_methods :=
  unfold alarm, alarmBody, stateTx, state, setState, setAlarm, healthCheck,
    monitorSettled, monitorResolved, monitorRejected, start, destroy,
    attachMonitor, handleMonitorPromise, blockConcurrencyWhile,
    storage_get, storage_put, storage_sync, storage_getAlarm,
    storage_setAlarm, storage_deleteAll, storage_deleteAlarm, ctx_abort,
    container_start, container_monitor, container_destroy, port_fetch,
    text in *.

(** The same, keeping the critical sections folded. *)
Ltac unfold_bodies :=
  unfold alarm, alarmBody, stateTx, state, setState, setAlarm, healthCheck,
    monitorSettled, monitorResolved, monitorRejected, start, destroy,
    attachMonitor, handleMonitorPromise,
    storage_get, storage_put, storage_sync, storage_getAlarm,
    storage_setAlarm, storage_deleteAll, storage_deleteAlarm, ctx_abort,
    container_start, container_monitor, container_destroy, port_fetch,
    text in *.

Ltac unfold_monad :=
  unfold bind, ret, throw, wrap, try_finally, then_catch, modify, gets,
    reset_during in *.

(** Symbolic execution when no call fails. *)
Ltac exec_quiet :=
  repeat first
    [ progress unfold_methods
    | progress unfold_monad
    | rewrite andb_negb_l
    | rewrite call_quiet by assumption
    | match goal with
      | H : kv (ctx ?c) !! ?k = _ |- context [kv (ctx ?c) !! ?k] => rewrite H
      end
    | progress cbn
    | case_bool_decide; try congruence ].

(** Symbolic execution when calls may fail: one case per call. *)
Ltac exec_any :=
  repeat first
    [ progress unfold_methods
    | progress unfold_monad
    | progress unfold call
    | rewrite andb_negb_l
    | rewrite andb_true_r
    | progress cbn
    | match goal with
      | |- context [fault ?e ?n ?ev] => destruct (fault e n ev)
      | |- context [aborted (ctx ?c)] =>
          is_var c; destruct (aborted (ctx c))
      end
    | case_bool_decide; try congruence ].

(** The calls between two points, once the later trace is known. *)
Ltac since :=
  unfold events_since; cbn;
  repeat rewrite app_assoc_cons;
  try rewrite drop_length_app.

(** ** The health probe *)

(** [healthCheck] makes no call that the environment can fail: what it
    returns and what it does are read off the outcome of the request. *)
Lemma healthCheck_run env port c :
  healthCheck env port c =
  let c1 :=
    record (PortFetch (default 8000 port) "http://container/_health") c in
  match probe env with
  | Return res =>
      if ok res then
        (match body res with
         | Return _ => Return (inl "ok")
         | Throw e => Throw e
         end, record (ResponseText (status res)) c1)
      else (Return (inr res), c1)
  | Throw err =>
      (if isNotListeningError err then Return (inl "not_listening")
       else if noContainerYetError err then Return (inl "no_container_yet")
       else Throw err, c1)
  end.
Proof.
  unfold_methods; unfold_monad; cbn.
  destruct (probe env) as [res|err]; cbn; rewrite ?andb_negb_l; cbn.
  - destruct (ok res); cbn; [|reflexivity].
    destruct (body res); reflexivity.
  - destruct (isNotListeningError err); [reflexivity|].
    destruct (noContainerYetError err); reflexivity.
Qed.

(** Every outcome of [healthCheck] is one of the five results. *)
Lemma healthCheck_result_defined env port c :
  exists r, probe_result (fst (healthCheck env port c)) = Some r.
Proof.
  rewrite healthCheck_run; cbn.
  destruct (probe env) as [res|err]; cbn.
  - destruct (ok res); cbn; [destruct (body res)|]; cbn; eauto.
  - destruct (isNotListeningError err); cbn; eauto.
    destruct (noContainerYetError err); cbn; eauto.
Qed.

(** Scenario A: a fresh instance whose probe finds no listener. *)
Example scenario_A :
  let env := reliable (Throw not_listening_error) in
  fst (healthCheck env None fresh) = Return (inl "not_listening") /\
  current (snd (alarm env fresh)) = starting.
Proof. split; reflexivity. Qed.

(** Scenario B: the probe returns 200. *)
Example scenario_B :
  let env := reliable (Return response_200) in
  fst (healthCheck env None fresh) = Return (inl "ok") /\
  persisted (snd (alarm env fresh)) = Some running.
Proof. split; reflexivity. Qed.

(** The first test wins when a message matches both. *)
Example both_messages :
  let err := mkError "the container is not listening: there is no container instance" in
  fst (healthCheck (reliable (Throw err)) None fresh)
  = Return (inl "not_listening").
Proof. reflexivity. Qed.

(** C6 (the defect): a 200 response whose body cannot be read to its end
    does not yield ['ok'].  [healthCheck] awaits [res.text()] without
    [wrap], so the error of the body leaves [healthCheck]; the tick that
    made the probe then marks a container in state "running" as
    "failed", although it answered with a successful status code. *)
Theorem healthCheck_2xx_unreadable_body :
  let env := reliable (Return response_200_broken) in
  ok response_200_broken = true /\
  fst (healthCheck env None (in_state running)) = Throw connection_reset /\
  persisted (snd (alarm env (in_state running))) = Some failed.
Proof. repeat split. Qed.

(** ** Properties kept by every method *)

Section Preserves.

Variable P : Container -> Prop.

Lemma preserves_ret {A} (a : A) : preserves P (ret a).
Proof. intros c H. exact H. Qed.

Lemma preserves_throw {A} (e : Error) : preserves P (@throw A e).
Proof. intros c H. exact H. Qed.

Lemma preserves_gets {A} (f : Container -> A) : preserves P (gets f).
Proof. intros c H. exact H. Qed.

Lemma preserves_modify (f : Container -> Container) :
  (forall c, P c -> P (f c)) -> preserves P (modify f).
Proof. intros Hf c H. apply Hf, H. Qed.

Lemma preserves_call env ev :
  (forall c, P c -> P (record ev c)) -> preserves P (call env ev).
Proof.
  intros Hf c H. unfold call.
  destruct (fault env _ ev); apply Hf, H.
Qed.

Lemma preserves_bind {A B} (m : M A) (k : A -> M B) :
  preserves P m -> (forall a, preserves P (k a)) -> preserves P (bind m k).
Proof.
  intros Hm Hk c H. unfold bind. specialize (Hm c H).
  destruct (m c) as [[a|e] c1]; [apply Hk|]; exact Hm.
Qed.

Lemma preserves_wrap {A} (m : M A) : preserves P m -> preserves P (wrap m).
Proof.
  intros Hm c H. unfold wrap. specialize (Hm c H).
  destruct (m c) as [[a|e] c1]; [exact Hm|].
  destruct (reset_during c c1); exact Hm.
Qed.

Lemma preserves_try_finally {A} (m : M A) (fin : M unit) :
  preserves P m -> preserves P fin -> preserves P (try_finally m fin).
Proof.
  intros Hm Hf c H. unfold try_finally. specialize (Hm c H).
  destruct (m c) as [r c1]. specialize (Hf c1 Hm).
  destruct (reset_during c c1); [exact Hm|].
  destruct (fin c1) as [[u|e] c2]; exact Hf.
Qed.

Lemma preserves_then_catch {A} (m : M A) (onErr : Error -> M A) :
  preserves P m -> (forall e, preserves P (onErr e)) ->
  preserves P (then_catch m onErr).
Proof.
  intros Hm Hk c H. unfold then_catch. specialize (Hm c H).
  destruct (m c) as [[a|e] c1]; [exact Hm|].
  destruct (reset_during c c1); [exact Hm | apply Hk, Hm].
Qed.

Lemma preserves_blockConcurrencyWhile {A} (cb : M A) :
  (forall c, P c -> P (record EnterCriticalSection c)) ->
  (forall c, P c -> P (record LeaveCriticalSection c)) ->
  (forall c, P c -> P (set_aborted c)) ->
  preserves P cb -> preserves P (blockConcurrencyWhile cb).
Proof.
  intros He Hl Ha Hm c H. unfold blockConcurrencyWhile.
  specialize (Hm _ (He c H)).
  destruct (cb (record EnterCriticalSection c)) as [[a|e] c1];
    [apply Hl | apply Ha]; exact Hm.
Qed.

End Preserves.

(** Decomposes a [preserves] goal along the structure of the method; the
    goals left are about the updates of the instance. *)
Ltac frame :=
  repeat first
    [ progress unfold_bodies
    | match goal with
      | |- preserves _ (blockConcurrencyWhile _) =>
          apply preserves_blockConcurrencyWhile;
            [intros ? ? | intros ? ? | intros ? ? |]
      | |- preserves _ (ret _) => apply preserves_ret
      | |- preserves _ (throw _) => apply preserves_throw
      | |- preserves _ (gets _) => apply preserves_gets
      | |- preserves _ (wrap _) => apply preserves_wrap
      | |- preserves _ (try_finally _ _) => apply preserves_try_finally
      | |- preserves _ (then_catch _ _) =>
          apply preserves_then_catch; [|intros ?]
      | |- preserves _ (bind _ _) => apply preserves_bind; [|intros ?]
      | |- preserves _ (call _ _) => apply preserves_call; intros ? ?
      | |- preserves _ (modify _) => apply preserves_modify; intros ? ?
      | |- preserves _ (match ?x with _ => _ end) => destruct x
      | |- preserves _ (let _ := _ in _) => cbv zeta
      end ].

Ltac frame_done :=
  frame;
  unfold alarm_slot_is, abort_flag_is, holds_runtime in *; cbn;
  first [assumption | reflexivity].

(** The alarm slot is only written by [setAlarm] and [destroy]. *)
Lemma tick_section_keeps_alarm env a :
  preserves (alarm_slot_is a) (stateTx env (alarmBody env)).
Proof. frame_done. Qed.


Lemma monitorSettled_keeps_alarm env a s :
  preserves (alarm_slot_is a) (monitorSettled env s).
Proof. frame_done. Qed.



Lemma alarm_stays_reset env :
  preserves (abort_flag_is true) (alarm env).
Proof. frame_done. Qed.

(** [this.container] stays the object that [ctx] exposes. *)
Lemma alarm_holds_runtime env : preserves holds_runtime (alarm env).
Proof. frame_done. Qed.

Lemma start_holds_runtime env options :
  preserves holds_runtime (start env options).
Proof. frame_done. Qed.

Lemma monitorSettled_holds_runtime env s :
  preserves holds_runtime (monitorSettled env s).
Proof. frame_done. Qed.

Lemma destroy_holds_runtime env : preserves holds_runtime (destroy env).
Proof. frame_done. Qed.

(** ** The timer-driven tick *)

(** [setAlarm] when the calls into the alarm slot do not fail. *)
Lemma setAlarm_run env value c :
  timers_ok env ->
  let v := default (now env + 500) value in
  match alarmAt (ctx c) with
  | Some t =>
      setAlarm env value c = (Return tt, record StorageGetAlarm c)
  | None =>
      alarmAt (ctx (snd (setAlarm env value c))) = Some v /\
      trace (ctx (snd (setAlarm env value c))) =
        trace (ctx c) ++ [StorageGetAlarm; StorageSetAlarm v; StorageSync]
  end.
Proof.
  intros Ht. cbn zeta.
  unfold setAlarm, storage_getAlarm, storage_setAlarm, storage_sync.
  unfold_monad.
  rewrite call_ok by apply Ht. cbn.
  destruct (alarmAt (ctx c)) eqn:Ha; [reflexivity|].
  rewrite call_ok by apply Ht. cbn.
  unfold call. destruct (fault env _ StorageSync); cbn;
    (split; [reflexivity | now rewrite <- !app_assoc]).
Qed.

(** [setAlarm] never replaces a pending timer, whatever fails. *)
Lemma setAlarm_keeps_pending env value c t :
  alarmAt (ctx c) = Some t ->
  alarmAt (ctx (snd (setAlarm env value c))) = Some t.
Proof.
  intros Ha. unfold setAlarm, storage_getAlarm. unfold_monad.
  unfold call. destruct (fault env _ StorageGetAlarm); cbn; [exact Ha|].
  rewrite Ha. exact Ha.
Qed.

(** The alarm slot after a tick that did not end in a reset: the
    [finally] block has run. *)
Lemma alarm_slot_after env c :
  timers_ok env ->
  aborted (ctx (snd (alarm env c))) = false ->
  alarmAt (ctx (snd (alarm env c)))
  = Some (default (now env + 500) (alarmAt (ctx c))).
Proof.
  intros Ht. unfold alarm, try_finally.
  pose proof (tick_section_keeps_alarm env (alarmAt (ctx c)) c eq_refl) as Hb.
  unfold alarm_slot_is in Hb.
  destruct (stateTx env (alarmBody env) c) as [r c1]. cbn in Hb.
  destruct (reset_during c c1) eqn:Hr.
  { unfold reset_during in Hr. apply andb_true_iff in Hr.
    cbn. intros Ha. destruct Hr as [_ Hr]. congruence. }
  intros _.
  pose proof (setAlarm_run env None c1 Ht) as Hs. cbn in Hs.
  rewrite Hb in Hs.
  destruct (alarmAt (ctx c)) as [t|].
  - rewrite Hs. cbn. exact Hb.
  - destruct Hs as [Hs _].
    destruct (setAlarm env None c1) as [[u|e] c2]; exact Hs.
Qed.

(** C1: one tick applies the transition table.  For every persisted
    state (read as "starting" when absent) and every outcome of the
    probe, when the storage calls succeed: ['ok'] sets "running";
    ['not_listening'] and ['no_container_yet'] set "starting"; a response,
    which [healthCheck] only passes on when it is not 2xx, sets
    "unhealthy", and its body is read before the state is written; an
    error of the probe sets "failed", except that in state "starting"
    nothing is written. *)
Theorem alarm_transition_table env c r :
  quiet env ->
  probe_result (fst (healthCheck env None c)) = Some r ->
  let c' := snd (alarm env c) in
  match r with
  | Ok => persisted c' = Some running
  | NotListening => persisted c' = Some starting
  | NoContainerYet => persisted c' = Some starting
  | HttpResponse res =>
      ok res = false /\ persisted c' = Some unhealthy /\
      exists rest, events_since c c' = unhealthy_tick_calls res ++ rest
  | GenericError _ =>
      if bool_decide (current c = starting) then kv (ctx c') = kv (ctx c)
      else persisted c' = Some failed
  end.
Proof.
  intros Hq Hr. rewrite healthCheck_run in Hr. cbn in Hr.
  unfold alarm, alarmBody, stateTx, blockConcurrencyWhile, state, storage_get.
  unfold_monad. rewrite call_quiet by assumption. cbn.
  rewrite healthCheck_run. cbn.
  fold (persisted c). fold (current c).
  destruct (probe env) as [res|err]; cbn in *.
  - destruct (ok res) eqn:Hok; cbn in *.
    + destruct (body res) as [s|e]; cbn in *; injection Hr as <-.
      * exec_quiet. destruct (alarmAt (ctx c)); exec_quiet;
          apply lookup_insert_eq.
      * unfold current.
        destruct (persisted c) as [[]|] eqn:Hp; cbn;
          exec_quiet; destruct (alarmAt (ctx c)); exec_quiet;
          try reflexivity; apply lookup_insert_eq.
    + injection Hr as <-. split; [assumption|].
      exec_quiet. destruct (body res); exec_quiet;
        destruct (alarmAt (ctx c)); exec_quiet;
        (split; [apply lookup_insert_eq|]); since; eexists; reflexivity.
  - destruct (isNotListeningError err); cbn in *.
    { injection Hr as <-. exec_quiet.
      destruct (alarmAt (ctx c)); exec_quiet; apply lookup_insert_eq. }
    destruct (noContainerYetError err); cbn in *.
    { injection Hr as <-. exec_quiet.
      destruct (alarmAt (ctx c)); exec_quiet; apply lookup_insert_eq. }
    injection Hr as <-. unfold current.
    destruct (persisted c) as [[]|] eqn:Hp; cbn;
      exec_quiet; destruct (alarmAt (ctx c)); exec_quiet;
      try reflexivity; apply lookup_insert_eq.
Qed.

(** Scenario C: state "running", the probe returns 503. *)
Lemma alarm_transition_table_witness :
  let env := reliable (Return response_503) in
  let c' := snd (alarm env (in_state running)) in
  ok response_503 = false /\
  persisted c' = Some unhealthy /\
  exists rest,
    events_since (in_state running) c' = unhealthy_tick_calls response_503 ++ rest.
Proof.
  exact (alarm_transition_table
           (reliable (Return response_503)) (in_state running)
           (HttpResponse response_503)
           (quiet_reliable _) eq_refl).
Defined.

(** C4 (the defect): a tick whose body throws schedules nothing.  The
    timer has fired and the state is "running"; the probe fails, and the
    write of "failed" is rejected by the storage.  That error is thrown
    inside the critical section of [stateTx], so the object is reset:
    the [finally] block of [alarm], which is there to reschedule on
    every exit, does not run, no call into the alarm slot is made, and
    no timer is pending when the tick ends. *)
Theorem alarm_throwing_body_skips_reschedule :
  let env := put_fails (Throw network_error) in
  let c := in_state running in
  let c' := snd (alarm env c) in
  alarmAt (ctx c) = None /\
  fst (alarm env c) = Throw disk_error /\
  events_since c c' =
    [EnterCriticalSection; StorageGet "state";
     PortFetch 8000 "http://container/_health";
     StoragePut "state" failed] /\
  aborted (ctx c') = true /\
  alarmAt (ctx c') = None.
Proof. repeat split. Qed.

(** *** Errors that leave a tick *)

Section ThrowsOnlyFaults.

Variable env : Env.

Lemma tof_ret {A} (a : A) : throws_only_faults env (ret a).
Proof. intros c e H. discriminate H. Qed.

Lemma tof_gets {A} (f : Container -> A) : throws_only_faults env (gets f).
Proof. intros c e H. discriminate H. Qed.

Lemma tof_modify f : throws_only_faults env (modify f).
Proof. intros c e H. discriminate H. Qed.

Lemma tof_call ev : throws_only_faults env (call env ev).
Proof.
  intros c e H. unfold call in H.
  destruct (fault env _ ev) as [e'|] eqn:Hf; [|discriminate H].
  injection H as <-. eauto.
Qed.

Lemma tof_bind {A B} (m : M A) (k : A -> M B) :
  throws_only_faults env m -> (forall a, throws_only_faults env (k a)) ->
  throws_only_faults env (bind m k).
Proof.
  intros Hm Hk c e H. unfold bind in H. specialize (Hm c).
  destruct (m c) as [[a|e'] c1]; [eapply Hk, H |].
  apply Hm. cbn in *. congruence.
Qed.

(** [wrap] turns every error of a computation that does not reset the
    object into a value, wherever the error comes from. *)
Lemma tof_wrap {A} (m : M A) :
  (forall b, preserves (abort_flag_is b) m) ->
  throws_only_faults env (wrap m).
Proof.
  intros Hm c e H. unfold wrap, reset_during in H.
  specialize (Hm _ c eq_refl). unfold abort_flag_is in Hm.
  destruct (m c) as [[a|e'] c1]; [discriminate H|].
  cbn in Hm. rewrite Hm, andb_negb_l in H. discriminate H.
Qed.

Lemma tof_try_finally {A} (m : M A) (fin : M unit) :
  throws_only_faults env m -> throws_only_faults env fin ->
  throws_only_faults env (try_finally m fin).
Proof.
  intros Hm Hf c e H. unfold try_finally in H.
  specialize (Hm c). destruct (m c) as [r c1].
  destruct (reset_during c c1); [apply Hm, H|].
  specialize (Hf c1). destruct (fin c1) as [[u|e'] c2].
  - apply Hm, H.
  - apply Hf. cbn in *. congruence.
Qed.

Lemma tof_blockConcurrencyWhile {A} (cb : M A) :
  throws_only_faults env cb ->
  throws_only_faults env (blockConcurrencyWhile cb).
Proof.
  intros Hm c e H. unfold blockConcurrencyWhile in H.
  specialize (Hm (record EnterCriticalSection c)).
  destruct (cb (record EnterCriticalSection c)) as [[a|e'] c1];
    [discriminate H|].
  apply Hm. cbn in *. congruence.
Qed.

End ThrowsOnlyFaults.

Ltac contain :=
  repeat first
    [ progress unfold_bodies
    | match goal with
      | |- throws_only_faults _ (blockConcurrencyWhile _) =>
          apply tof_blockConcurrencyWhile
      | |- throws_only_faults _ (ret _) => apply tof_ret
      | |- throws_only_faults _ (gets _) => apply tof_gets
      | |- throws_only_faults _ (modify _) => apply tof_modify
      | |- throws_only_faults _ (call _ _) => apply tof_call
      | |- throws_only_faults _ (wrap _) =>
          apply tof_wrap; intros ?; frame_done
      | |- throws_only_faults _ (try_finally _ _) => apply tof_try_finally
      | |- throws_only_faults _ (bind _ _) => apply tof_bind; [|intros ?]
      | |- throws_only_faults _ (match ?x with _ => _ end) => destruct x
      | |- throws_only_faults _ (let _ := _ in _) => cbv zeta
      end ].

Lemma alarm_throws_only_faults env : throws_only_faults env (alarm env).
Proof. contain. Qed.

(** C9, as the code has it: no error of the probe leaves a tick.  For
    every outcome of the probe, the tick returns normally when its
    storage and alarm calls succeed; and an error that does leave the
    tick is always the error of one of those calls, which [alarm] (a
    [try]/[finally] with no [catch]) lets through. *)
Theorem alarm_error_containment env c :
  (quiet env -> fst (alarm env c) = Return tt) /\
  (forall e, fst (alarm env c) = Throw e ->
     exists n ev, fault env n ev = Some e).
Proof.
  split.
  - intros Hq. destruct (fst (alarm env c)) as [[]|e] eqn:H; [reflexivity|].
    apply alarm_throws_only_faults in H. destruct H as (n & ev & H).
    rewrite Hq in H. discriminate H.
  - intros e. apply alarm_throws_only_faults.
Qed.

(** A probe error with working storage, and a tick whose write fails. *)
Lemma alarm_error_containment_witness :
  fst (alarm (reliable (Throw network_error)) (in_state running)) = Return tt /\
  exists n ev, fault (put_fails (Throw network_error)) n ev = Some disk_error.
Proof.
  split.
  - exact (proj1 (alarm_error_containment
                    (reliable (Throw network_error)) (in_state running))
                 (quiet_reliable _)).
  - exact (proj2 (alarm_error_containment
                    (put_fails (Throw network_error)) (in_state running))
                 disk_error eq_refl).
Defined.

(** C9, as stated, fails: the probe raises a generic error in state
    "running", the tick converts it into the write of "failed", the
    write fails, and the tick throws. *)
Lemma alarm_propagates_storage_error :
  fst (alarm (put_fails (Throw network_error)) (in_state running))
  = Throw disk_error.
Proof. reflexivity. Qed.

(** ** The monitor-completion handler *)

(** C2: the handler of a settled monitor.  When the storage calls
    succeed: on resolution, "running" and "unhealthy" become "stopped",
    and "starting", "failed" (and "stopped") leave the storage as it is;
    on rejection the state becomes "failed" whatever it was. *)
Theorem monitor_settlement_transitions env s c :
  quiet env ->
  let c' := snd (monitorSettled env s c) in
  match s with
  | Resolved =>
      match current c with
      | running | unhealthy => persisted c' = Some stopped
      | starting | failed | stopped => kv (ctx c') = kv (ctx c)
      end
  | Rejected _ => persisted c' = Some failed
  end.
Proof.
  intros Hq. destruct s as [|err].
  - unfold current, persisted.
    destruct (kv (ctx c) !! "state") as [[]|] eqn:Hp;
      exec_quiet; try reflexivity; apply lookup_insert_eq.
  - exec_quiet. apply lookup_insert_eq.
Qed.

(** Scenario D: state "running", the monitor resolves. *)
Lemma monitor_settlement_transitions_witness :
  persisted
    (snd (monitorSettled (reliable (Throw network_error)) Resolved
            (in_state running)))
  = Some stopped.
Proof.
  exact (monitor_settlement_transitions
           (reliable (Throw network_error)) Resolved (in_state running)
           (quiet_reliable _)).
Defined.

(** The [.then] callback reads and writes the state inside the critical
    section. *)
Lemma monitorResolved_serialized env c :
  quiet env ->
  serialized (events_since c (snd (monitorSettled env Resolved c))) = true.
Proof.
  intros Hq.
  destruct (kv (ctx c) !! "state") as [[]|] eqn:Hp; exec_quiet; since;
    reflexivity.
Qed.

(** C3 (the defect): the [.catch] callback writes the state outside the
    critical section.  Whatever the error, the instance and the
    environment, the write of "failed" is made with no section open:
    the callback calls [setState] directly, where the [.then] callback
    and [alarm] go through [stateTx]. *)
Theorem monitorRejected_not_serialized env err c :
  serialized (events_since c (snd (monitorSettled env (Rejected err) c)))
  = false.
Proof. exec_any; since; reflexivity. Qed.

(** ** [start] *)

(** C7: [start] on a running runtime with a tracked monitor changes
    nothing at all; on a running runtime with no tracked monitor it only
    takes a monitor from the runtime and attaches the handler to it;
    on a runtime that is not running it writes "starting", starts the
    runtime with the given options and attaches a fresh monitor, in that
    order (there, the storage calls are assumed to succeed). *)
Theorem start_cases env options c :
  let c' := snd (start env options c) in
  let p := rt_monitors (container c) in
  match rt_running (container c), monitor c with
  | true, Some _ => start env options c = (Return tt, c)
  | true, None =>
      fst (start env options c) = Return tt /\
      events_since c c' = [RuntimeMonitor p; MonitorAttach p] /\
      monitor c' = Some p /\
      kv (ctx c') = kv (ctx c) /\
      rt_started (container c') = rt_started (container c)
  | false, _ =>
      quiet env ->
      fst (start env options c) = Return tt /\
      events_since c c' =
        [StoragePut "state" starting; StorageSync; RuntimeStart options;
         RuntimeMonitor p; MonitorAttach p] /\
      persisted c' = Some starting /\
      rt_started (container c') = options :: rt_started (container c) /\
      monitor c' = Some p
  end.
Proof.
  destruct c as [d [[] started n gone] [m|]]; cbn.
  - reflexivity.
  - exec_quiet. since. repeat split; reflexivity.
  - intros Hq. exec_quiet. since. repeat split; try reflexivity.
    apply lookup_insert_eq.
  - intros Hq. exec_quiet. since. repeat split; try reflexivity.
    apply lookup_insert_eq.
Qed.

(** A first [start], with options, on a runtime that is not running. *)
Lemma start_cases_witness :
  let env := reliable (Throw network_error) in
  let c' := snd (start env (Some startup_options) fresh) in
  fst (start env (Some startup_options) fresh) = Return tt /\
  events_since fresh c' =
    [StoragePut "state" starting; StorageSync;
     RuntimeStart (Some startup_options);
     RuntimeMonitor 0%nat; MonitorAttach 0%nat] /\
  persisted c' = Some starting /\
  rt_started (container c') = [Some startup_options] /\
  monitor c' = Some 0%nat.
Proof.
  exact (start_cases (reliable (Throw network_error))
           (Some startup_options) fresh (quiet_reliable _)).
Defined.

(** ** [destroy] *)

(** [destroy] always ends in [ctx.abort()]. *)
Lemma destroy_aborts env c :
  fst (destroy env c) = Throw abort_error /\
  aborted (ctx (snd (destroy env c))) = true.
Proof. split; exec_any; reflexivity. Qed.

(** C5: [destroy] cleans up in order and always signals termination.
    It always throws the error of [ctx.abort()], and the calls it makes
    are an initial part of: delete the storage, delete the alarm,
    destroy the runtime; followed by the abort.  When the two deletions
    succeed, all three steps are made in that order and the storage and
    the alarm slot are empty when the abort is raised, whether the
    runtime's own [destroy] succeeds or fails. *)
Theorem destroy_wipes_then_terminates env c :
  let r := destroy env c in
  fst r = Throw abort_error /\
  aborted (ctx (snd r)) = true /\
  (exists done rest,
     events_since c (snd r) = done ++ [CtxAbort] /\
     [StorageDeleteAll; StorageDeleteAlarm; RuntimeDestroy] = done ++ rest) /\
  ((forall n, fault env n StorageDeleteAll = None /\
              fault env n StorageDeleteAlarm = None) ->
   events_since c (snd r) =
     [StorageDeleteAll; StorageDeleteAlarm; RuntimeDestroy; CtxAbort] /\
   kv (ctx (snd r)) = ∅ /\
   alarmAt (ctx (snd r)) = None).
Proof.
  cbn zeta. split; [apply destroy_aborts|]. split; [apply destroy_aborts|].
  split.
  - exec_any; since.
    + exists [StorageDeleteAll], [StorageDeleteAlarm; RuntimeDestroy].
      now split.
    + exists [StorageDeleteAll; StorageDeleteAlarm], [RuntimeDestroy].
      now split.
    + exists [StorageDeleteAll; StorageDeleteAlarm; RuntimeDestroy], [].
      now split.
    + exists [StorageDeleteAll; StorageDeleteAlarm; RuntimeDestroy], [].
      now split.
  - intros H.
    unfold destroy, storage_deleteAll, storage_deleteAlarm. unfold_monad.
    rewrite call_ok by apply H. cbn. rewrite call_ok by apply H. cbn.
    repeat split; exec_any; since; reflexivity.
Qed.

(** Scenario F: the runtime's own [destroy] fails. *)
Lemma destroy_wipes_then_terminates_witness :
  let c := set_alarmAt (Some 1500) (in_state running) in
  let r := destroy destroy_fails c in
  fst r = Throw abort_error /\
  rt_destroyed (container (snd r)) = false /\
  events_since c (snd r) =
    [StorageDeleteAll; StorageDeleteAlarm; RuntimeDestroy; CtxAbort] /\
  kv (ctx (snd r)) = ∅ /\
  alarmAt (ctx (snd r)) = None.
Proof.
  split; [reflexivity|]. split; [reflexivity|].
  refine (proj2 (proj2 (proj2
            (destroy_wipes_then_terminates destroy_fails
               (set_alarmAt (Some 1500) (in_state running))))) _).
  intros n. split; reflexivity.
Defined.

(** ** The lifetime of an instance *)

(** What the constructor establishes when it returns an instance. *)
Lemma constructor_inv env ctx0 this ctx' :
  constructor env ctx0 = (Return this, ctx') ->
  ctx' = ctx this /\ holds_runtime this /\
  (exists rt, ctx_container ctx0 = Some rt) /\
  (timers_ok env -> exists t, alarmAt (ctx this) = Some t).
Proof.
  unfold constructor. destruct (ctx_container ctx0) as [rt|] eqn:Hc;
    [|discriminate].
  intros H. injection H as <- <-.
  split; [reflexivity|]. split; [|split; [eauto|]].
  - match goal with
    | |- holds_runtime (snd (?m ?c)) =>
        assert (preserves holds_runtime m) as Hp by frame_done; apply Hp
    end.
    exact Hc.
  - intros Ht.
    destruct rt as [[] started n gone];
      unfold blockConcurrencyWhile, attachMonitor, container_monitor,
        handleMonitorPromise;
      unfold_monad; cbn.
    all: match goal with
         | Ht : timers_ok ?e |- context [setAlarm ?e ?v ?c1] =>
             pose proof (setAlarm_run e v c1 Ht) as Hs;
             pose proof (setAlarm_keeps_pending e v c1) as Hk;
             destruct (alarmAt (ctx c1)) as [t|];
               [ specialize (Hk t eq_refl) | destruct Hs as [Hs _] ];
               destruct (setAlarm e v c1) as [[] c2]; cbn in *; eauto
         end.
Qed.

Lemma reachable_holds_runtime c : reachable c -> holds_runtime c.
Proof.
  induction 1 as [env ctx0 this ctx' Ht Hc | c c' Hr IH Hs].
  - apply (constructor_inv _ _ _ _ Hc).
  - destruct Hs.
    + apply alarm_holds_runtime. exact IH.
    + apply start_holds_runtime, IH.
    + apply monitorSettled_holds_runtime, IH.
    + apply destroy_holds_runtime, IH.
Qed.


Lemma constructed_spec :
  constructor (reliable (Throw network_error)) fresh_ctx
  = (Return constructed, ctx constructed).
Proof. reflexivity. Defined.

(** C10: the constructor requires a container.  Over a context that
    exposes no container it throws and leaves the context as it was; an
    instance that it returns was built over a context that exposes one,
    [this.container] is that object, and this stays so in every state
    that the instance can reach. *)
Theorem constructor_requires_container env ctx0 :
  (ctx_container ctx0 = None ->
   constructor env ctx0
   = (Throw (mkError "container is not defined"), ctx0)) /\
  (forall this ctx',
     constructor env ctx0 = (Return this, ctx') ->
     (exists rt, ctx_container ctx0 = Some rt) /\
     ctx_container (ctx this) = Some (container this)) /\
  (forall c, reachable c -> ctx_container (ctx c) = Some (container c)).
Proof.
  split; [|split].
  - intros H. unfold constructor. rewrite H. reflexivity.
  - intros this ctx' H. apply constructor_inv in H.
    destruct H as (_ & Hh & Hc & _). split; assumption.
  - exact reachable_holds_runtime.
Qed.

(** No container: the constructor throws.  A container: the instance
    holds it. *)
Lemma constructor_requires_container_witness :
  constructor (reliable (Throw network_error)) bare_ctx
  = (Throw (mkError "container is not defined"), bare_ctx) /\
  ctx_container (ctx constructed) = Some (container constructed).
Proof.
  split.
  - exact (proj1 (constructor_requires_container
                    (reliable (Throw network_error)) bare_ctx) eq_refl).
  - exact (proj2 (proj1 (proj2 (constructor_requires_container
                    (reliable (Throw network_error)) fresh_ctx))
                  constructed (ctx constructed) constructed_spec)).
Defined.




(** * Further properties of the code *)

(** ** The tests on the error message *)

Lemma append_cons a (s t : string) :
  String.append (String a s) t = String a (String.append s t).
Proof. reflexivity. Qed.

Lemma prefix_append (sub str : string) :
  String.prefix sub str = true <-> exists post, str = String.append sub post.
Proof.
  revert str. induction sub as [|a sub IH]; intros str; cbn.
  - split; [intros _; exists str; reflexivity | intros _; destruct str; reflexivity].
  - destruct str as [|b str].
    + split; [discriminate | intros [post H]; discriminate H].
    + simpl. destruct (Ascii.ascii_dec a b) as [->|Hne].
      * rewrite IH.
        split; intros [post H]; exists post; rewrite append_cons in *;
          congruence.
      * split; [discriminate|].
        intros [post H]. rewrite append_cons in H. congruence.
Qed.

Lemma includes_append (str sub : string) :
  includes str sub = true <->
  exists pre post, str = String.append pre (String.append sub post).
Proof.
  induction str as [|a str IH].
  - change (includes "" sub) with (String.prefix sub "" || false).
    rewrite orb_false_r, prefix_append. split.
    + intros [post H]. exists EmptyString, post. exact H.
    + intros (pre & post & H). destruct pre as [|b pre]; [eauto|].
      rewrite append_cons in H. discriminate H.
  - change (includes (String a str) sub)
      with (String.prefix sub (String a str) || includes str sub).
    rewrite orb_true_iff, IH, prefix_append. split.
    + intros [[post H] | (pre & post & H)].
      * exists EmptyString, post. exact H.
      * exists (String a pre), post. rewrite append_cons. now rewrite H.
    + intros (pre & post & H). destruct pre as [|b pre].
      * left. eauto.
      * right. exists pre, post. rewrite append_cons in H. congruence.
Qed.

(** X1: the two tests hold exactly of the messages that contain the
    phrase somewhere, with anything before and after it. *)
Theorem error_tests_find_the_phrase err :
  (isNotListeningError err = true <->
   exists pre post,
     message err
     = String.append pre
         (String.append "the container is not listening" post)) /\
  (noContainerYetError err = true <->
   exists pre post,
     message err
     = String.append pre
         (String.append "there is no container instance" post)).
Proof. split; apply includes_append. Qed.

Lemma error_tests_find_the_phrase_witness :
  isNotListeningError not_listening_error = true.
Proof.
  apply (proj2 (proj1 (error_tests_find_the_phrase not_listening_error))).
  exists "connect(): ", " in the TCP address". reflexivity.
Defined.

(** ** More on the health probe *)

(** X2: what each outcome of [healthCheck] tells its caller.  A string
    is one of the three literals, each with its cause; a [Response] is
    the response received, its status is not 2xx and its body has not
    been read; an error is the error of a request whose message matches
    neither phrase, or the error of reading the body of a 2xx response. *)
Theorem healthCheck_outcome_meaning env port c :
  match fst (healthCheck env port c) with
  | Return (inl s) =>
      (s = "ok" /\
       exists res text, probe env = Return res /\ ok res = true /\
                        body res = Return text) \/
      (s = "not_listening" /\
       exists err, probe env = Throw err /\ isNotListeningError err = true) \/
      (s = "no_container_yet" /\
       exists err, probe env = Throw err /\ isNotListeningError err = false /\
                   noContainerYetError err = true)
  | Return (inr res) =>
      probe env = Return res /\ ok res = false /\
      ~ In (ResponseText (status res))
           (events_since c (snd (healthCheck env port c)))
  | Throw e =>
      (probe env = Throw e /\ isNotListeningError e = false /\
       noContainerYetError e = false) \/
      (exists res, probe env = Return res /\ ok res = true /\
                   body res = Throw e)
  end.
Proof.
  rewrite healthCheck_run. cbn.
  destruct (probe env) as [res|err]; cbn.
  - destruct (ok res) eqn:Hok; cbn.
    + destruct (body res) as [text|e] eqn:Hb; cbn.
      * left. split; [reflexivity|]. exists res, text. auto.
      * right. exists res. auto.
    + split; [reflexivity|]. split; [assumption|].
      since. intros [H|[]]. discriminate H.
  - destruct (isNotListeningError err) eqn:Hn; cbn.
    { right. left. split; [reflexivity|]. exists err. auto. }
    destruct (noContainerYetError err) eqn:Hc; cbn.
    { right. right. split; [reflexivity|]. exists err. auto. }
    left. auto.
Qed.

(** X3: [healthCheck] only probes.  It makes one request, to the given
    port (8000 when none is given) at the health path, reads the body
    exactly when the response is 2xx, and leaves the storage, the alarm
    slot, the runtime and the tracked monitor as they are. *)
Theorem healthCheck_only_probes env port c :
  let c' := snd (healthCheck env port c) in
  events_since c c' =
    PortFetch (default 8000 port) "http://container/_health" ::
    match probe env with
    | Return res => if ok res then [ResponseText (status res)] else []
    | Throw _ => []
    end /\
  kv (ctx c') = kv (ctx c) /\
  alarmAt (ctx c') = alarmAt (ctx c) /\
  container c' = container c /\
  monitor c' = monitor c.
Proof.
  cbn zeta. rewrite healthCheck_run. cbn.
  destruct (probe env) as [res|err]; cbn.
  - destruct (ok res); cbn; since; repeat split; reflexivity.
  - since. repeat split; reflexivity.
Qed.

(** ** The persisted state *)

(** X4: [state()] reads back what [setState] wrote, and reading never
    changes the storage: the default "starting" of a missing key is not
    written. *)
Theorem state_reads_what_setState_wrote env env' s c :
  quiet env -> quiet env' ->
  fst (state env' (snd (setState env s c))) = Return s /\
  kv (ctx (snd (state env' c))) = kv (ctx c).
Proof.
  intros Hq Hq'. split.
  - unfold state, setState, storage_get, storage_put, storage_sync.
    unfold_monad. rewrite (call_quiet env) by assumption. cbn.
    rewrite (call_quiet env) by assumption. cbn.
    rewrite (call_quiet env') by assumption. cbn.
    now rewrite lookup_insert_eq.
  - unfold state, storage_get. unfold_monad.
    rewrite (call_quiet env') by assumption. reflexivity.
Qed.

Lemma state_reads_what_setState_wrote_witness :
  let env := reliable (Throw network_error) in
  fst (state env (snd (setState env unhealthy (in_state running))))
  = Return unhealthy /\
  kv (ctx (snd (state env (in_state running)))) = kv (ctx (in_state running)).
Proof.
  exact (state_reads_what_setState_wrote
           (reliable (Throw network_error)) (reliable (Throw network_error))
           unhealthy (in_state running) (quiet_reliable _) (quiet_reliable _)).
Defined.

(** ** More on the alarm *)

(** X5: scheduling twice schedules once.  After a first [setAlarm], a
    second one only asks for the pending alarm: it sets nothing,
    whatever time it is given. *)
Theorem setAlarm_twice env env' value value' c :
  timers_ok env -> timers_ok env' ->
  let c1 := snd (setAlarm env value c) in
  setAlarm env' value' c1 = (Return tt, record StorageGetAlarm c1).
Proof.
  intros Ht Ht'. cbn zeta.
  pose proof (setAlarm_run env value c Ht) as H1. cbn in H1.
  pose proof (setAlarm_run env' value' (snd (setAlarm env value c)) Ht')
    as H2. cbn in H2.
  destruct (alarmAt (ctx c)) as [t|] eqn:Ha.
  - rewrite H1 in *. cbn in *. rewrite Ha in H2. exact H2.
  - destruct H1 as [H1 _]. rewrite H1 in H2. exact H2.
Qed.

Lemma setAlarm_twice_witness :
  let env := reliable (Throw network_error) in
  let c1 := snd (setAlarm env None fresh) in
  alarmAt (ctx c1) = Some 1500 /\
  setAlarm env (Some 9000) c1 = (Return tt, record StorageGetAlarm c1).
Proof.
  split; [reflexivity|].
  exact (setAlarm_twice (reliable (Throw network_error))
           (reliable (Throw network_error)) None (Some 9000) fresh
           (timers_ok_reliable _) (timers_ok_reliable _)).
Defined.

(** X6: a tick reads and writes the state only inside its critical
    section, whatever the probe returns and whichever calls fail. *)
Theorem alarm_serialized env c :
  serialized (events_since c (snd (alarm env c))) = true.
Proof.
  unfold alarm, alarmBody, stateTx, blockConcurrencyWhile, state, storage_get.
  unfold_monad. cbn. unfold call at 1.
  destruct (fault env _ (StorageGet "state")); cbn.
  - exec_any; destruct (alarmAt (ctx c)); exec_any; since; reflexivity.
  - rewrite healthCheck_run. cbn.
    destruct (probe env) as [res|err]; cbn.
    + destruct (ok res); cbn; [destruct (body res); cbn|].
      * exec_any; destruct (alarmAt (ctx c)); exec_any; since; reflexivity.
      * destruct (kv (ctx c) !! "state") as [[]|];
          exec_any; destruct (alarmAt (ctx c)); exec_any; since; reflexivity.
      * exec_any; destruct (body res); exec_any;
          destruct (alarmAt (ctx c)); exec_any; since; reflexivity.
    + destruct (isNotListeningError err); cbn.
      { exec_any; destruct (alarmAt (ctx c)); exec_any; since; reflexivity. }
      destruct (noContainerYetError err); cbn.
      { exec_any; destruct (alarmAt (ctx c)); exec_any; since; reflexivity. }
      destruct (kv (ctx c) !! "state") as [[]|];
        exec_any; destruct (alarmAt (ctx c)); exec_any; since; reflexivity.
Qed.

Lemma alarm_same_runtime env c : same_runtime c (snd (alarm env c)).
Proof.
  assert (preserves (same_runtime c) (alarm env)) as H.
  { frame; unfold same_runtime in *; cbn; assumption. }
  apply H. split; reflexivity.
Qed.

(** X7: a tick leaves the runtime alone.  Whatever the probe returns
    and whichever calls fail, [alarm] does not start or destroy the
    runtime, takes no monitor from it, and keeps the tracked monitor:
    it never restarts a container. *)
Theorem alarm_leaves_runtime_alone env c :
  container (snd (alarm env c)) = container c /\
  monitor (snd (alarm env c)) = monitor c.
Proof. exact (alarm_same_runtime env c). Qed.

(** X8: a tick that cannot read the state.  When [storage.get] fails
    on a live object, the error is thrown inside the critical section:
    the object is reset and the tick throws that error; it has made no
    probe and has written no state, and its [finally] block does not
    run, so the alarm slot is left as it was. *)
Theorem alarm_when_state_read_fails env c e :
  alive c ->
  fault env (S (List.length (trace (ctx c)))) (StorageGet "state") = Some e ->
  let c' := snd (alarm env c) in
  fst (alarm env c) = Throw e /\
  events_since c c' = [EnterCriticalSection; StorageGet "state"] /\
  kv (ctx c') = kv (ctx c) /\
  alarmAt (ctx c') = alarmAt (ctx c) /\
  aborted (ctx c') = true.
Proof.
  unfold alive. intros Ha Hf. cbn zeta.
  assert (call env (StorageGet "state") (record EnterCriticalSection c)
          = (Throw e, record (StorageGet "state")
                        (record EnterCriticalSection c))) as Hcall.
  { unfold call. cbn. rewrite length_app, Nat.add_comm. cbn.
    now rewrite Hf. }
  unfold alarm, alarmBody, stateTx, blockConcurrencyWhile, state, storage_get.
  unfold_monad. cbn. rewrite Hcall. cbn. rewrite Ha. cbn.
  repeat split. since. reflexivity.
Qed.

Lemma alarm_when_state_read_fails_witness :
  let c' := snd (alarm get_fails (in_state running)) in
  fst (alarm get_fails (in_state running)) = Throw disk_error /\
  events_since (in_state running) c'
  = [EnterCriticalSection; StorageGet "state"] /\
  kv (ctx c') = kv (ctx (in_state running)) /\
  alarmAt (ctx c') = alarmAt (ctx (in_state running)) /\
  aborted (ctx c') = true.
Proof.
  exact (alarm_when_state_read_fails get_fails (in_state running)
           disk_error eq_refl eq_refl).
Defined.

(** X17: a tick that does not end in a reset has rescheduled.  When
    the calls into the alarm slot succeed and the object is alive when
    the tick ends, the [finally] block has run: a timer is pending, the
    one that was pending before the tick or else a new one 500 ms
    ahead. *)
Theorem alarm_reschedules_unless_reset env c :
  timers_ok env ->
  alive (snd (alarm env c)) ->
  alarmAt (ctx (snd (alarm env c)))
  = Some (default (now env + 500) (alarmAt (ctx c))).
Proof. intros Ht Ha. exact (alarm_slot_after env c Ht Ha). Qed.

Lemma alarm_reschedules_unless_reset_witness :
  alarmAt (ctx (snd (alarm (reliable (Return response_503))
                       (in_state running))))
  = Some 1500.
Proof.
  exact (alarm_reschedules_unless_reset (reliable (Return response_503))
           (in_state running) (timers_ok_reliable _) eq_refl).
Defined.

(** ** More on the monitor-completion handler *)

Lemma monitorSettled_same_runtime env s c :
  same_runtime c (snd (monitorSettled env s c)).
Proof.
  assert (preserves (same_runtime c) (monitorSettled env s)) as H.
  { frame; unfold same_runtime in *; cbn; assumption. }
  apply H. split; reflexivity.
Qed.

(** X9: the handler of a settled monitor only writes the state.  It
    leaves the alarm slot and the runtime as they are, and it does not
    clear [this.monitor]: the settled promise stays the tracked one. *)
Theorem monitorSettled_only_writes_state env s c :
  let c' := snd (monitorSettled env s c) in
  alarmAt (ctx c') = alarmAt (ctx c) /\
  container c' = container c /\
  monitor c' = monitor c.
Proof.
  cbn zeta. split.
  - apply (monitorSettled_keeps_alarm env _ s c eq_refl).
  - exact (monitorSettled_same_runtime env s c).
Qed.

(** X10: a resolved monitor whose handler cannot read the state.  When
    [storage.get] fails in the [.then] callback on a live object, the
    error is thrown inside the critical section and the object is
    reset: the chained [.catch] callback does not run, "failed" is not
    written, and the persisted state stays as it was. *)
Theorem monitorResolved_read_failure env c e :
  alive c ->
  fault env (S (List.length (trace (ctx c)))) (StorageGet "state") = Some e ->
  let c' := snd (monitorSettled env Resolved c) in
  fst (monitorSettled env Resolved c) = Throw e /\
  events_since c c' = [EnterCriticalSection; StorageGet "state"] /\
  kv (ctx c') = kv (ctx c) /\
  aborted (ctx c') = true.
Proof.
  unfold alive. intros Ha Hf. cbn zeta.
  assert (call env (StorageGet "state") (record EnterCriticalSection c)
          = (Throw e, record (StorageGet "state")
                        (record EnterCriticalSection c))) as Hcall.
  { unfold call. cbn. rewrite length_app, Nat.add_comm. cbn.
    now rewrite Hf. }
  unfold monitorSettled, monitorResolved, monitorRejected, stateTx,
    blockConcurrencyWhile, state, storage_get.
  unfold_monad. cbn. rewrite Hcall. cbn. rewrite Ha. cbn.
  repeat split. since. reflexivity.
Qed.

Lemma monitorResolved_read_failure_witness :
  let c' := snd (monitorSettled get_fails Resolved (in_state running)) in
  fst (monitorSettled get_fails Resolved (in_state running))
  = Throw disk_error /\
  events_since (in_state running) c'
  = [EnterCriticalSection; StorageGet "state"] /\
  kv (ctx c') = kv (ctx (in_state running)) /\
  aborted (ctx c') = true.
Proof.
  exact (monitorResolved_read_failure get_fails (in_state running)
           disk_error eq_refl eq_refl).
Defined.

(** ** More on [start] *)

(** X11: a [start] that fails has launched nothing.  [start] only
    throws on a runtime that is not running, when writing "starting"
    fails; the runtime has then not been started and no monitor has been
    taken or attached. *)
Theorem start_failure_launches_nothing env options c e :
  fst (start env options c) = Throw e ->
  rt_running (container c) = false /\
  container (snd (start env options c)) = container c /\
  monitor (snd (start env options c)) = monitor c.
Proof.
  destruct c as [d [[] started n gone] m]; cbn.
  - destruct m; exec_any; discriminate.
  - exec_any; intros H; try discriminate H; repeat split.
Qed.

Lemma start_failure_launches_nothing_witness :
  let env := put_fails (Throw network_error) in
  rt_running (container fresh) = false /\
  container (snd (start env None fresh)) = container fresh /\
  monitor (snd (start env None fresh)) = monitor fresh.
Proof.
  exact (start_failure_launches_nothing (put_fails (Throw network_error))
           None fresh disk_error eq_refl).
Defined.

(** X12: [start] writes the state outside the critical section.  On a
    runtime that is not running, the write of "starting" is made with no
    section open, whatever fails. *)
Theorem start_writes_outside_section env options c :
  rt_running (container c) = false ->
  serialized (events_since c (snd (start env options c))) = false.
Proof.
  destruct c as [d [[] started n gone] m]; cbn; [discriminate|].
  intros _. exec_any; since; reflexivity.
Qed.

Lemma start_writes_outside_section_witness :
  serialized
    (events_since fresh
       (snd (start (reliable (Throw network_error)) None fresh)))
  = false.
Proof.
  exact (start_writes_outside_section (reliable (Throw network_error))
           None fresh eq_refl).
Defined.

(** ** More on [destroy] *)

Lemma call_fails env ev c e :
  fault env (List.length (trace (ctx c))) ev = Some e ->
  call env ev c = (Throw e, record ev c).
Proof. intros H. unfold call. now rewrite H. Qed.

(** X13: a step of [destroy] that fails ends the cleanup.  When deleting
    the storage fails nothing is deleted and the runtime is not asked to
    destroy; when deleting the alarm fails the storage is empty but the
    alarm stays and the runtime is not asked to destroy.  The abort
    follows in both cases. *)
Theorem destroy_stops_at_first_failure env c :
  let n := List.length (trace (ctx c)) in
  let c' := snd (destroy env c) in
  match fault env n StorageDeleteAll, fault env (S n) StorageDeleteAlarm with
  | Some _, _ =>
      events_since c c' = [StorageDeleteAll; CtxAbort] /\
      kv (ctx c') = kv (ctx c) /\
      alarmAt (ctx c') = alarmAt (ctx c) /\
      container c' = container c
  | None, Some _ =>
      events_since c c' = [StorageDeleteAll; StorageDeleteAlarm; CtxAbort] /\
      kv (ctx c') = ∅ /\
      alarmAt (ctx c') = alarmAt (ctx c) /\
      container c' = container c
  | None, None =>
      events_since c c' =
        [StorageDeleteAll; StorageDeleteAlarm; RuntimeDestroy; CtxAbort] /\
      kv (ctx c') = ∅ /\
      alarmAt (ctx c') = None
  end.
Proof.
  cbn zeta.
  unfold destroy, storage_deleteAll, storage_deleteAlarm, container_destroy,
    ctx_abort.
  unfold_monad.
  destruct (fault env _ StorageDeleteAll) as [e1|] eqn:H1.
  { rewrite (call_fails _ _ _ _ H1). cbn. rewrite andb_negb_l.
    since. repeat split. }
  rewrite (call_ok _ _ _ H1). cbn.
  destruct (fault env _ StorageDeleteAlarm) as [e2|] eqn:H2.
  { rewrite (call_fails env StorageDeleteAlarm _ e2)
      by (cbn; rewrite length_app, Nat.add_comm; exact H2).
    cbn. rewrite andb_negb_l. since. repeat split. }
  rewrite (call_ok env StorageDeleteAlarm)
    by (cbn; rewrite length_app, Nat.add_comm; exact H2).
  cbn. unfold call. destruct (fault env _ RuntimeDestroy); cbn;
    rewrite andb_negb_l; since; repeat split.
Qed.

(** ** More on the constructor and the lifetime *)

(** X14: what construction does over a context that exposes a
    container.  It returns an instance; it writes no state and does not
    start the runtime; it calls [container.monitor()] once and attaches
    the handler to that promise, which becomes the tracked monitor,
    exactly when the runtime is already running, and makes no such call
    otherwise; and, when the calls into the alarm slot succeed, it keeps
    a pending timer or else sets one at the current time. *)
Theorem constructor_effects env ctx0 rt :
  ctx_container ctx0 = Some rt ->
  exists this,
    constructor env ctx0 = (Return this, ctx this) /\
    kv (ctx this) = kv ctx0 /\
    rt_started (container this) = rt_started rt /\
    rt_running (container this) = rt_running rt /\
    List.filter is_monitor_call
      (drop (List.length (trace ctx0)) (trace (ctx this)))
    = (if rt_running rt
       then [RuntimeMonitor (rt_monitors rt); MonitorAttach (rt_monitors rt)]
       else []) /\
    rt_monitors (container this)
    = (if rt_running rt then S (rt_monitors rt) else rt_monitors rt) /\
    monitor this
    = (if rt_running rt then Some (rt_monitors rt) else None) /\
    (timers_ok env ->
     alarmAt (ctx this) = Some (default (now env) (alarmAt ctx0))).
Proof.
  intros Hc. unfold constructor. rewrite Hc.
  eexists. split; [reflexivity|].
  destruct rt as [[] started n gone]; cbn.
  all: repeat split; try (intros Ht).
  all: try (exec_any; destruct (alarmAt ctx0); exec_any;
            repeat rewrite app_assoc_cons; rewrite ?drop_length_app;
            reflexivity).
  all: unfold blockConcurrencyWhile, attachMonitor, container_monitor,
         handleMonitorPromise;
       unfold_monad; cbn.
  all: match goal with
       | Ht : timers_ok ?e |- context [setAlarm ?e ?v ?c1] =>
           pose proof (setAlarm_run e v c1 Ht) as Hs; cbn in Hs;
           destruct (alarmAt ctx0) as [t|] eqn:Ha;
             [ rewrite Hs; exact Ha | destruct Hs as [Hs _] ];
             destruct (setAlarm e v c1) as [[] c2]; exact Hs
       end.
Qed.

Lemma constructor_effects_witness :
  exists this,
    constructor (reliable (Throw network_error)) fresh_ctx
    = (Return this, ctx this) /\
    kv (ctx this) = kv fresh_ctx /\
    rt_started (container this) = [] /\
    rt_running (container this) = false /\
    List.filter is_monitor_call
      (drop (List.length (trace fresh_ctx)) (trace (ctx this))) = [] /\
    rt_monitors (container this) = 0%nat /\
    monitor this = None /\
    (timers_ok (reliable (Throw network_error)) ->
     alarmAt (ctx this) = Some 1000).
Proof.
  exact (constructor_effects (reliable (Throw network_error)) fresh_ctx
           idle_runtime eq_refl).
Defined.

Lemma destroy_keeps_started env c :
  rt_started (container (snd (destroy env c))) = rt_started (container c).
Proof.
  assert (preserves
            (fun c' => rt_started (container c') = rt_started (container c))
            (destroy env)) as H.
  { frame; cbn; assumption. }
  apply H. reflexivity.
Qed.

(** X15: only [start] starts the runtime.  Over the lifetime of an
    instance, a tick, a settled monitor and [destroy] leave the list of
    start requests of the runtime as it is: a container that stopped or
    failed is started again by a call of [start] and by nothing else. *)
Theorem only_start_starts_the_runtime c c' :
  step c c' ->
  rt_started (container c') = rt_started (container c) \/
  exists env options, c' = snd (start env options c).
Proof.
  intros [env t Ht Hp | env options | env s | env].
  - left. now rewrite (proj1 (alarm_same_runtime env _)).
  - right. eauto.
  - left. now rewrite (proj1 (monitorSettled_same_runtime env s c)).
  - left. apply destroy_keeps_started.
Qed.

Lemma only_start_starts_the_runtime_witness :
  let c' := snd (monitorSettled (reliable (Throw network_error))
                   (Rejected network_error) constructed) in
  rt_started (container c') = rt_started (container constructed) \/
  exists env options, c' = snd (start env options constructed).
Proof.
  exact (only_start_starts_the_runtime constructed _
           (step_monitor constructed (reliable (Throw network_error))
              (Rejected network_error))).
Defined.

(** ** [ContainerManager] *)

Lemma counter_lt_finite i q :
  counter_lt i (Finite q) = true <->
  QArith_base.Qlt (QArith_base.inject_Z i) q.
Proof.
  unfold counter_lt. rewrite negb_true_iff.
  split.
  - intros H. apply QArith_base.Qnot_le_lt. intros Hle.
    apply QArith_base.Qle_bool_iff in Hle. congruence.
  - intros H. destruct (QArith_base.Qle_bool q (QArith_base.inject_Z i)) eqn:E;
      [|reflexivity].
    apply QArith_base.Qle_bool_iff in E.
    exfalso. exact (QArith_base.Qlt_not_le _ _ H E).
Qed.

(** A finite count up to 2^53 is reached by the counter. *)
Lemma statesLoop_ends q statuses :
  QArith_base.Qle q (QArith_base.inject_Z max_counter) ->
  forall fuel i,
    0 <= i <= max_counter ->
    (Z.to_nat (Qround.Qceiling q - i) < fuel)%nat ->
    statesLoop fuel i (Finite q) statuses = Some statuses.
Proof.
  intros Hq. induction fuel as [|fuel IH]; intros i Hi Hf; [lia|].
  cbn [statesLoop].
  destruct (counter_lt i (Finite q)) eqn:E; [|reflexivity].
  apply counter_lt_finite in E.
  assert (i < Qround.Qceiling q) as Hc.
  { rewrite QArith_base.Zlt_Qlt.
    eapply QArith_base.Qlt_le_trans; [exact E | apply Qround.Qle_ceiling]. }
  assert (i < max_counter) as Hm.
  { rewrite QArith_base.Zlt_Qlt.
    eapply QArith_base.Qlt_le_trans; [exact E | exact Hq]. }
  unfold counter_next. destruct (Z.ltb_spec i max_counter); [|lia].
  apply IH; lia.
Qed.

(** A count that every value of the counter stays below is never
    reached. *)
Lemma statesLoop_runs_on instances statuses :
  (forall i, 0 <= i <= max_counter -> counter_lt i instances = true) ->
  forall fuel i,
    0 <= i <= max_counter ->
    statesLoop fuel i instances statuses = None.
Proof.
  intros Hlt. induction fuel as [|fuel IH]; intros i Hi; [reflexivity|].
  cbn [statesLoop]. rewrite (Hlt i Hi).
  apply IH. unfold counter_next.
  destruct (Z.ltb_spec i max_counter); lia.
Qed.

Lemma max_counter_pos : 0 <= 0 <= max_counter.
Proof. unfold max_counter. lia. Qed.

Lemma statesLoop_result instances :
  if loop_ends instances
  then exists rounds, forall fuel,
         (rounds <= fuel)%nat -> statesLoop fuel 0 instances [] = Some []
  else forall fuel, statesLoop fuel 0 instances [] = None.
Proof.
  destruct instances as [q| | |]; cbn [loop_ends].
  - destruct (QArith_base.Qle_bool q (QArith_base.inject_Z max_counter))
      eqn:E.
    + apply QArith_base.Qle_bool_iff in E.
      exists (S (Z.to_nat (Qround.Qceiling q))). intros fuel Hf.
      apply statesLoop_ends; [exact E | apply max_counter_pos |].
      rewrite Z.sub_0_r. lia.
    + intros fuel. apply statesLoop_runs_on; [|apply max_counter_pos].
      intros i Hi. apply counter_lt_finite.
      apply QArith_base.Qnot_le_lt. intros Hle.
      assert (QArith_base.Qle q (QArith_base.inject_Z max_counter)) as H.
      { eapply QArith_base.Qle_trans; [exact Hle|].
        rewrite <- QArith_base.Zle_Qle. lia. }
      apply QArith_base.Qle_bool_iff in H. congruence.
  - exists 1%nat. intros [|fuel] Hf; [lia | reflexivity].
  - intros fuel. apply statesLoop_runs_on; [|apply max_counter_pos].
    reflexivity.
  - exists 1%nat. intros [|fuel] Hf; [lia | reflexivity].
Qed.

(** X16: the fleet aggregation returns no data, when it returns.  With
    no count stored, [getContainerStates] returns the empty list.  With
    the count set by [setNumberOfInstances], it returns the empty list
    when the count is [NaN], negative infinity or a finite number up to
    2^53; for a finite count above 2^53 and for positive infinity the
    loop never ends, because the counter cannot pass 2^53. *)
Theorem getContainerStates_result instances m :
  (forall fuel, getContainerStates (S fuel) (mkManager ∅) = Some []) /\
  (if loop_ends instances
   then exists rounds, forall fuel,
          (rounds <= fuel)%nat ->
          getContainerStates fuel (setNumberOfInstances instances m)
          = Some []
   else forall fuel,
          getContainerStates fuel (setNumberOfInstances instances m) = None).
Proof.
  split; [reflexivity|].
  unfold getContainerStates, setNumberOfInstances. cbn.
  rewrite lookup_insert_eq. cbn. apply statesLoop_result.
Qed.

(** Three instances; and a count that is never reached. *)
Lemma getContainerStates_result_witness :
  (exists rounds, forall fuel,
     (rounds <= fuel)%nat ->
     getContainerStates fuel
       (setNumberOfInstances (Finite (QArith_base.inject_Z 3)) (mkManager ∅))
     = Some []) /\
  (forall fuel,
     getContainerStates fuel (setNumberOfInstances PosInfinity (mkManager ∅))
     = None).
Proof.
  split.
  - exact (proj2 (getContainerStates_result
                    (Finite (QArith_base.inject_Z 3)) (mkManager ∅))).
  - exact (proj2 (getContainerStates_result PosInfinity (mkManager ∅))).
Defined.
